(** * PackedArray: a header contiguous with a run-time sized array

    Shallow embedding of [libraries/lib-utility/PackedArray.h]:
    the [Deleter] (count computation and teardown order), the smart
    pointer [Ptr] with [Count], [begin], [end] and subscripting, the
    tagged [operator new] / [operator delete] pair, and the two
    allocation helpers [AllocateBytes] and [AllocateCount].

    Conventions.
    - [size_t] is a [Z] in [[0, 2^w)]; every [size_t] operation of the
      source that can wrap has its reduction modulo [2^w] written out.
    - A pointer is an [option Z]: [None] is [nullptr], [Some a] is the
      byte address [a].
    - What the compiler decides for a managed type ([sizeof], [offsetof],
      [std::is_empty_v]) is gathered in the record [TypeInfo].
    - Destructor calls, allocations and deallocations are observable
      events appended to a log, in program order. *)

From Stdlib Require Import ZArith List Bool Lia.
Import ListNotations.
Local Open Scope Z_scope.

(** ** What the compiler knows about [Type] and [Traits<Type>] *)

Record TypeInfo : Type := {
  sizeof_managed    : Z;     (* sizeof(managed_type) *)
  sizeof_header     : Z;     (* sizeof(header_type); nonzero even when empty *)
  is_empty_header   : bool;  (* std::is_empty_v<header_type> *)
  sizeof_element    : Z;     (* sizeof(element_type) *)
  sizeof_iterated   : Z;     (* sizeof(iterated_type) *)
  sizeof_Overlay    : Z;     (* sizeof(Overlay) *)
  offsetof_elements : Z      (* offsetof(Overlay, elements) *)
}.

(** The primary template [Traits<T>]: an empty [header_type], and
    [element_type = iterated_type = T].  With the empty base class
    optimisation the overlay is one [T]. *)
Definition default_Traits (sizeof_T : Z) : TypeInfo :=
  {| sizeof_managed := sizeof_T;
     sizeof_header := 1;
     is_empty_header := true;
     sizeof_element := sizeof_T;
     sizeof_iterated := sizeof_T;
     sizeof_Overlay := sizeof_T;
     offsetof_elements := 0 |}.

(** Three specialisations as a 64-bit compiler with natural alignment
    lays them out. *)

(** [struct header_type { int32_t n; }] with [element_type = int32_t]:
    no padding anywhere. *)
Definition int_header_int_elements : TypeInfo :=
  {| sizeof_managed := 8;
     sizeof_header := 4;
     is_empty_header := false;
     sizeof_element := 4;
     sizeof_iterated := 4;
     sizeof_Overlay := 8;
     offsetof_elements := 4 |}.

(** [struct header_type { double scale; }] with [element_type = char]:
    seven bytes of padding after the one-element array. *)
Definition double_header_char_elements : TypeInfo :=
  {| sizeof_managed := 16;
     sizeof_header := 8;
     is_empty_header := false;
     sizeof_element := 1;
     sizeof_iterated := 1;
     sizeof_Overlay := 16;
     offsetof_elements := 8 |}.

(** [struct header_type { char tag; }] with [element_type = double]:
    seven bytes of padding between the header and the array. *)
Definition char_header_double_elements : TypeInfo :=
  {| sizeof_managed := 16;
     sizeof_header := 1;
     is_empty_header := false;
     sizeof_element := 8;
     sizeof_iterated := 8;
     sizeof_Overlay := 16;
     offsetof_elements := 8 |}.

(** [std::is_empty_v<header_type> ? 0 : sizeof(header_type)], the
    expression shared by [begin] and [AllocateCount]. *)
Definition header_bytes (T : TypeInfo) : Z :=
  if is_empty_header T then 0 else sizeof_header T.

(** ** The static assertions of [Deleter] *)

(** A [bool] operand of [==] against a [size_t] is promoted to 0 or 1. *)
Definition bool_to_size (b : bool) : Z := if b then 1 else 0.

(** [static_assert(sizeof(Overlay) == sizeof(managed_type))] *)
Definition static_assert_size (T : TypeInfo) : bool :=
  sizeof_Overlay T =? sizeof_managed T.

(** The operand of the second [static_assert].  [==] binds tighter than
    [?:], so the source expression
    [offsetof(Overlay, elements) == std::is_empty_v<header_type> ? 0
       : sizeof(header_type)]
    is the conditional whose test is the comparison. *)
Definition static_assert_offset_operand (T : TypeInfo) : Z :=
  if offsetof_elements T =? bool_to_size (is_empty_header T)
  then 0
  else sizeof_header T.

(** The assertion holds when its operand converts to [true]. *)
Definition static_assert_offset (T : TypeInfo) : bool :=
  negb (static_assert_offset_operand T =? 0).

(** [Deleter<Type>] can be instantiated when both assertions hold. *)
Definition Deleter_instantiates (T : TypeInfo) : bool :=
  static_assert_size T && static_assert_offset T.

(** The comparison the comment next to the second assertion describes:
    the offset against 0 or [sizeof(header_type)]. *)
Definition offset_matches_header (T : TypeInfo) : bool :=
  offsetof_elements T =? header_bytes T.

(** ** Events and pointers *)

Definition ptr : Type := option Z.

Inductive Event : Type :=
| EvOperatorNew (bytes : Z)        (* ::operator new(bytes) is called *)
| EvConstruct (p : Z)              (* Type{args...} completed at p *)
| EvConstructThrow (p : Z)         (* Type{args...} threw at p *)
| EvOperatorDelete (p : Z)         (* ::operator delete(p) *)
| EvDestroyElement (a : Z)         (* ~element_type() on the object at a *)
| EvDestroyHeader (p : Z)          (* ~header_type() on the overlay at p *)
| EvBaseDelete (p : Z).            (* base_type::operator()(p) *)

Definition is_element_destruction (e : Event) : bool :=
  match e with EvDestroyElement _ => true | _ => false end.

Definition is_header_destruction (e : Event) : bool :=
  match e with EvDestroyHeader _ => true | _ => false end.

Definition is_base_delete (e : Event) : bool :=
  match e with EvBaseDelete _ => true | _ => false end.

Definition is_operator_new (e : Event) : bool :=
  match e with EvOperatorNew _ => true | _ => false end.

Definition is_operator_delete_of (p : Z) (e : Event) : bool :=
  match e with EvOperatorDelete q => q =? p | _ => false end.

Definition occurrences (f : Event -> bool) (log : list Event) : nat :=
  length (filter f log).

Section PackedArray.

(** Width of [size_t] in bits. *)
Variable w : positive.

Definition size_modulus : Z := 2 ^ Z.pos w.

(** Reduction of a mathematical result to [size_t]. *)
Definition to_size_t (z : Z) : Z := z mod size_modulus.

Definition size_sub (a b : Z) : Z := to_size_t (a - b).
Definition size_add (a b : Z) : Z := to_size_t (a + b).
Definition size_mul (a b : Z) : Z := to_size_t (a * b).

(** ** Deleter *)

Record Deleter : Type := { mCount : Z }.

(** [Deleter(size_t size = 0) noexcept
      : mCount{ (size - sizeof(header_type)) / sizeof(element_type) } {}] *)
Definition Deleter_ctor (T : TypeInfo) (size : Z) : Deleter :=
  {| mCount := size_sub size (sizeof_header T) / sizeof_element T |}.

(** The default argument. *)
Definition Deleter_default (T : TypeInfo) : Deleter := Deleter_ctor T 0.

Definition GetCount (d : Deleter) : Z := mCount d.

(** The loop of [Deleter::operator()]:
    [for (auto count = mCount; count--;) (--pE)->~element_type();]
    [pE] is the address held by the [element_type *]; each decrement
    moves it back by [sizeof(element_type)].  [None] is running out of
    fuel. *)
Fixpoint destroy_elements (T : TypeInfo) (fuel : nat) (count pE : Z)
  : option (list Event) :=
  match fuel with
  | O => None
  | S fuel' =>
      if count =? 0 then Some []
      else
        let pE' := pE - sizeof_element T in
        match destroy_elements T fuel' (count - 1) pE' with
        | Some rest => Some (EvDestroyElement pE' :: rest)
        | None => None
        end
  end.

(** [pOverlay->elements + i] *)
Definition element_address (T : TypeInfo) (p i : Z) : Z :=
  p + offsetof_elements T + i * sizeof_element T.

(** [void operator()(Type *p) const] *)
Definition Deleter_call (T : TypeInfo) (fuel : nat) (d : Deleter) (p : ptr)
  : option (list Event) :=
  match p with
  | None => Some []
  | Some a =>
      let pE := element_address T a (mCount d) in
      match destroy_elements T fuel (mCount d) pE with
      | Some destroyed =>
          Some (destroyed ++ [EvDestroyHeader a; EvBaseDelete a])
      | None => None
      end
  end.

(** ** Ptr *)

(** [std::unique_ptr<Type, Deleter<Type, BaseDeleter>>]: the stored
    pointer and the stored deleter. *)
Record Ptr : Type := { get : ptr; get_deleter : Deleter }.

(** [Ptr{}]: a null pointer and a value-initialised deleter. *)
Definition Ptr_default (T : TypeInfo) : Ptr :=
  {| get := None; get_deleter := Deleter_default T |}.

(** [Ptr{ p, size }]: the second argument converts to the deleter
    through its implicit constructor. *)
Definition Ptr_ctor (T : TypeInfo) (p : ptr) (size : Z) : Ptr :=
  {| get := p; get_deleter := Deleter_ctor T size |}.

(** [Ptr{ p }]: the constructors of [unique_ptr] are inherited by the
    using-declaration; the one that takes only a pointer
    value-initialises the deleter. *)
Definition Ptr_adopt (T : TypeInfo) (p : ptr) : Ptr :=
  {| get := p; get_deleter := Deleter_default T |}.

(** [~unique_ptr()]: calls the deleter on the stored pointer when it is
    not null. *)
Definition Ptr_destroy (T : TypeInfo) (fuel : nat) (P : Ptr)
  : option (list Event) :=
  match get P with
  | None => Some []
  | Some a => Deleter_call T fuel (get_deleter P) (Some a)
  end.

Definition Count (P : Ptr) : Z := GetCount (get_deleter P).

(** [begin(p)]: the address of the first iterated object, or null. *)
Definition begin (T : TypeInfo) (P : Ptr) : ptr :=
  match get P with
  | Some a => Some (a + header_bytes T)
  | None => None
  end.

(** [result += n] on an [iterated_type *]. *)
Definition iterated_advance (T : TypeInfo) (a n : Z) : Z :=
  a + n * sizeof_iterated T.

(** [end(p)] *)
Definition end_ (T : TypeInfo) (P : Ptr) : ptr :=
  match begin T P with
  | Some a => Some (iterated_advance T a (Count P))
  | None => None
  end.

(** [operator[](ii)] dereferences [begin + ii] of the pointer itself.
    The reference is the address it designates; there is none to form
    from a null [begin]. *)
Definition subscript (T : TypeInfo) (P : Ptr) (ii : Z) : ptr :=
  match begin T P with
  | Some a => Some (iterated_advance T a ii)
  | None => None
  end.

Definition ptr_eqb (p q : ptr) : bool :=
  match p, q with
  | None, None => true
  | Some a, Some b => a =? b
  | _, _ => false
  end.

(** A range-for from [first] to [last] over [iterated_type] pointers:
    compare with [last], visit, increment.  The result lists the
    addresses visited, in order. *)
Fixpoint range_for (T : TypeInfo) (fuel : nat) (it last : ptr)
  : option (list Z) :=
  if ptr_eqb it last then Some []
  else
    match fuel, it with
    | S fuel', Some a =>
        match range_for T fuel' (Some (iterated_advance T a 1)) last with
        | Some rest => Some (a :: rest)
        | None => None
        end
    | _, _ => None
    end.

(** ** Computations that log events and may throw *)

Inductive exn : Type :=
| bad_alloc            (* thrown by ::operator new *)
| constructor_failure. (* thrown by the constructor of Type *)

Inductive result (A : Type) : Type :=
| Returned (a : A)
| Thrown (e : exn).
Arguments Returned {A} a.
Arguments Thrown {A} e.

(** A computation extends the event log and returns or throws. *)
Definition M (A : Type) : Type := list Event -> result A * list Event.

Definition ret {A} (a : A) : M A := fun log => (Returned a, log).

Definition bind {A B} (m : M A) (k : A -> M B) : M B :=
  fun log =>
    match m log with
    | (Returned a, log') => k a log'
    | (Thrown e, log') => (Thrown e, log')
    end.

Definition throw {A} (e : exn) : M A := fun log => (Thrown e, log).

Definition emit (e : Event) : M unit := fun log => (Returned tt, log ++ [e]).

(** [try { m } catch (...) { handler; throw; }] *)
Definition on_exception {A} (m : M A) (handler : M unit) : M A :=
  fun log =>
    match m log with
    | (Returned a, log') => (Returned a, log')
    | (Thrown e, log') =>
        match handler log' with
        | (Returned _, log'') => (Thrown e, log'')
        | (Thrown e', log'') => (Thrown e', log'')
        end
    end.

Notation "x <- m ;; k" := (bind m (fun x => k))
  (at level 61, m at next level, right associativity).
Notation "m ;;; k" := (bind m (fun _ => k))
  (at level 61, right associativity).

(** ** The allocator and the constructor of [Type] *)

(** The answer of the global [::operator new] to a request of [n]
    bytes: the address of the new block, or [None] for [bad_alloc]. *)
Variable heap_new : Z -> option Z.

Definition global_operator_new (n : Z) : M Z :=
  emit (EvOperatorNew n) ;;;
  match heap_new n with
  | Some p => ret p
  | None => throw bad_alloc
  end.

Definition global_operator_delete (p : Z) : M unit :=
  emit (EvOperatorDelete p).

(** [inline void *operator new(size_t size, PackedArray_t, size_t enlarged)] *)
Definition operator_new (size enlarged : Z) : M Z :=
  global_operator_new (Z.max size enlarged).

(** [inline void operator delete(void *p, PackedArray_t, size_t)] *)
Definition operator_delete (p : Z) (enlarged : Z) : M unit :=
  global_operator_delete p.

(** What the constructor of [Type] does with the arguments it is given. *)
Inductive CtorOutcome : Type := CtorReturns | CtorThrows.

(** [Type{ std::forward<decltype(args)>(args)... }] at address [p] *)
Definition construct (args : CtorOutcome) (p : Z) : M unit :=
  match args with
  | CtorReturns => emit (EvConstruct p)
  | CtorThrows => emit (EvConstructThrow p) ;;; throw constructor_failure
  end.

(** Modelled from the spec: the macro [safenew] is defined outside this
    header; the spec describes one allocation, construction in place at
    the returned address, and release of the memory when construction
    fails.  That is the new-expression
    [new (PackedArrayArg, enlarged) Type{ args... }]: the placement
    [operator new] receives [sizeof(Type)] and the placement arguments,
    and the matching placement [operator delete] runs when the
    constructor throws. *)
Definition safenew (T : TypeInfo) (enlarged : Z) (args : CtorOutcome) : M Z :=
  p <- operator_new (sizeof_managed T) enlarged ;;
  on_exception (construct args p) (operator_delete p enlarged) ;;;
  ret p.

(** [AllocateBytes<Type>(enlarged)(args...)] *)
Definition AllocateBytes (T : TypeInfo) (enlarged : Z) (args : CtorOutcome)
  : M Ptr :=
  p <- safenew T enlarged args ;;
  ret (Ptr_ctor T (Some p) (Z.max (sizeof_managed T) enlarged)).

(** [AllocateCount<Type>(count)(args...)] *)
Definition AllocateCount (T : TypeInfo) (count : Z) (args : CtorOutcome)
  : M Ptr :=
  let bytes :=
    size_add (header_bytes T) (size_mul count (sizeof_element T)) in
  AllocateBytes T bytes args.

(** The value a computation returned, if it did. *)
Definition returned {A} (r : result A * list Event) : option A :=
  match fst r with
  | Returned a => Some a
  | Thrown _ => None
  end.

End PackedArray.

Arguments Returned {A} a.
Arguments Thrown {A} e.

(** Indices [n-1, n-2, ..., 0]. *)
Definition descending (n : nat) : list Z := map Z.of_nat (rev (seq 0 n)).

(** The event log of destroying the elements [n-1, ..., 0] of the array
    of [element_type] that starts at [base]. *)
Definition destroyed_from (T : TypeInfo) (base : Z) (n : nat) : list Event :=
  map (fun i => EvDestroyElement (base + i * sizeof_element T)) (descending n).

(** Closes a goal about concrete sizes by evaluation. *)
Ltac by_evaluation :=
  vm_compute; repeat split; try discriminate; try reflexivity; try lia.

(** * Properties *)

(** ** [size_t] arithmetic *)

Section SizeArithmetic.

Variable w : positive.

Lemma size_modulus_pos : 0 < size_modulus w.
Proof. unfold size_modulus. apply Z.pow_pos_nonneg; lia. Qed.

Lemma to_size_t_range z : 0 <= to_size_t w z < size_modulus w.
Proof. apply Z.mod_pos_bound, size_modulus_pos. Qed.

Lemma to_size_t_small z : 0 <= z < size_modulus w -> to_size_t w z = z.
Proof. intros H. now apply Z.mod_small. Qed.

(** A difference that is negative in [Z] comes out one modulus higher. *)
Lemma size_sub_wraps a b :
  0 <= a < b -> b <= size_modulus w ->
  size_sub w a b = size_modulus w + a - b.
Proof.
  intros Hab Hb. unfold size_sub, to_size_t.
  replace (a - b) with (size_modulus w + a - b + (-1) * size_modulus w) by ring.
  rewrite Z.mod_add by (pose proof size_modulus_pos; lia).
  apply Z.mod_small. lia.
Qed.

Lemma size_sub_exact a b :
  0 <= b <= a -> a < size_modulus w -> size_sub w a b = a - b.
Proof. intros Hab Ha. apply to_size_t_small. lia. Qed.

(** Truncating division leaves less than one divisor behind. *)
Lemma div_lower_bound n e : 1 <= e -> n - e < n / e * e.
Proof.
  intros He. pose proof (Z.mod_pos_bound n e ltac:(lia)).
  pose proof (Z.div_mod n e ltac:(lia)). lia.
Qed.

End SizeArithmetic.

(** ** The count stored by the deleter *)

Section DeleterCount.

Variable w : positive.

Lemma Deleter_ctor_exact T size :
  sizeof_header T <= size < size_modulus w -> 0 <= sizeof_header T ->
  GetCount (Deleter_ctor w T size)
  = (size - sizeof_header T) / sizeof_element T.
Proof.
  intros Hs Hh. unfold GetCount, Deleter_ctor; simpl.
  rewrite size_sub_exact by lia. reflexivity.
Qed.


(** C10. A default-constructed deleter has size argument 0.  The size
    of a header type is at least 1, also when it is empty, so the
    subtraction underflows and the stored count is
    [(2^w - sizeof(header_type)) / sizeof(element_type)].  [Count] of a
    default-constructed, null [Ptr] returns that value, which is not 0. *)
Theorem Count_of_default_Ptr T :
  1 <= sizeof_header T ->
  1 <= sizeof_element T ->
  sizeof_header T + sizeof_element T <= size_modulus w ->
  get (Ptr_default w T) = None
  /\ 0 - sizeof_header T < 0
  /\ GetCount (Deleter_default w T)
     = (size_modulus w - sizeof_header T) / sizeof_element T
  /\ Count (Ptr_default w T) = GetCount (Deleter_default w T)
  /\ 0 < Count (Ptr_default w T)
  /\ size_modulus w - sizeof_header T - sizeof_element T
     < Count (Ptr_default w T) * sizeof_element T.
Proof.
  intros Hh He Hfit.
  assert (Hc : GetCount (Deleter_default w T)
               = (size_modulus w - sizeof_header T) / sizeof_element T).
  { unfold Deleter_default, GetCount, Deleter_ctor; simpl.
    rewrite size_sub_wraps by lia.
    f_equal. lia. }
  assert (Hpos : 0 < (size_modulus w - sizeof_header T) / sizeof_element T)
    by (apply Z.div_str_pos; lia).
  assert (Hp : Count (Ptr_default w T) = GetCount (Deleter_default w T))
    by reflexivity.
  split; [reflexivity|]. split; [lia|]. split; [exact Hc|].
  split; [exact Hp|]. rewrite Hp, Hc. split; [exact Hpos|].
  apply div_lower_bound; assumption.
Qed.

End DeleterCount.

(** ** Teardown *)

Section Teardown.

Variable T : TypeInfo.

Lemma descending_S n : descending (S n) = Z.of_nat n :: descending n.
Proof.
  unfold descending. rewrite seq_S, rev_app_distr. reflexivity.
Qed.

(** With more fuel than elements the loop ends, having destroyed the
    elements one by one from the last to the first. *)
Lemma destroy_elements_descending n :
  forall fuel base,
    (n < fuel)%nat ->
    destroy_elements T fuel (Z.of_nat n) (base + Z.of_nat n * sizeof_element T)
    = Some (destroyed_from T base n).
Proof.
  induction n as [|n IH]; intros fuel base Hfuel.
  - destruct fuel as [|fuel]; [lia|]. reflexivity.
  - destruct fuel as [|fuel]; [lia|].
    cbn [destroy_elements].
    destruct (Z.eqb_spec (Z.of_nat (S n)) 0) as [E|_]; [lia|].
    replace (Z.of_nat (S n) - 1) with (Z.of_nat n) by lia.
    replace (base + Z.of_nat (S n) * sizeof_element T - sizeof_element T)
      with (base + Z.of_nat n * sizeof_element T) by lia.
    rewrite IH by lia.
    unfold destroyed_from. rewrite descending_S. reflexivity.
Qed.

Lemma destroyed_from_only_elements base n f :
  (forall a, f (EvDestroyElement a) = false) ->
  filter f (destroyed_from T base n) = [].
Proof.
  intros Hf. unfold destroyed_from.
  induction (descending n) as [|i l IH]; simpl; [reflexivity|].
  rewrite Hf. exact IH.
Qed.

Lemma destroyed_from_length base n :
  length (destroyed_from T base n) = n.
Proof.
  unfold destroyed_from, descending.
  now rewrite !length_map, length_rev, length_seq.
Qed.

(** C1. For a non-null block [a] and a deleter holding count [N], the
    call destroys the elements at indices [N-1, N-2, ..., 0] in this
    order, then the header once, then calls the base deleter once
    on [a]. *)
Theorem Deleter_call_order d a fuel :
  0 <= mCount d ->
  (Z.to_nat (mCount d) < fuel)%nat ->
  exists log,
    Deleter_call T fuel d (Some a) = Some log
    /\ log = map (fun i => EvDestroyElement (element_address T a i))
                 (descending (Z.to_nat (mCount d)))
             ++ [EvDestroyHeader a; EvBaseDelete a]
    /\ occurrences is_element_destruction log = Z.to_nat (mCount d)
    /\ occurrences is_header_destruction log = 1%nat
    /\ occurrences is_base_delete log = 1%nat.
Proof.
  intros Hn Hfuel.
  set (n := Z.to_nat (mCount d)) in *.
  assert (Hd : mCount d = Z.of_nat n) by (subst n; lia).
  exists (destroyed_from T (a + offsetof_elements T) n
          ++ [EvDestroyHeader a; EvBaseDelete a]).
  split; [|split; [|split; [|split]]].
  - unfold Deleter_call, element_address. rewrite Hd.
    rewrite destroy_elements_descending by exact Hfuel. reflexivity.
  - reflexivity.
  - unfold occurrences. rewrite filter_app; simpl.
    rewrite length_app; simpl.
    rewrite (forallb_filter_id is_element_destruction).
    + rewrite destroyed_from_length. lia.
    + unfold destroyed_from. apply forallb_forall.
      intros e He. apply in_map_iff in He as [i [<- _]]. reflexivity.
  - unfold occurrences. rewrite filter_app.
    rewrite destroyed_from_only_elements by reflexivity. reflexivity.
  - unfold occurrences. rewrite filter_app.
    rewrite destroyed_from_only_elements by reflexivity. reflexivity.
Qed.

End Teardown.

Section NullTeardown.

Variable w : positive.

(** C4. Called on a null pointer the deleter returns at once: the log
    is empty, so no element destructor, no header destructor and no
    base deallocation ran.  Destroying a default-constructed [Ptr] is
    therefore a no-op, whatever count its deleter holds. *)
Theorem Deleter_call_null T fuel d :
  Deleter_call T fuel d None = Some []
  /\ Ptr_destroy T fuel (Ptr_default w T) = Some []
  /\ forall kind,
       option_map (occurrences kind) (Deleter_call T fuel d None) = Some 0%nat
       /\ option_map (occurrences kind) (Ptr_destroy T fuel (Ptr_default w T))
          = Some 0%nat.
Proof. repeat split. Qed.

End NullTeardown.

(** ** Iteration and subscripting *)

Section Iteration.

Variable T : TypeInfo.

Lemma range_for_empty fuel p : range_for T fuel p p = Some [].
Proof.
  assert (E : ptr_eqb p p = true)
    by (destruct p as [a|]; simpl; [apply Z.eqb_refl | reflexivity]).
  destruct fuel; simpl; rewrite E; reflexivity.
Qed.

(** Iterating from the [k]-th object to the [(k+m)]-th visits the [m]
    objects in between in increasing address order. *)
Lemma range_for_forward b m :
  1 <= sizeof_iterated T ->
  forall k fuel,
    (m <= fuel)%nat ->
    range_for T fuel (Some (iterated_advance T b (Z.of_nat k)))
                     (Some (iterated_advance T b (Z.of_nat (k + m))))
    = Some (map (fun i => iterated_advance T b (Z.of_nat i)) (seq k m)).
Proof.
  intros Hs. induction m as [|m IH]; intros k fuel Hfuel.
  - rewrite Nat.add_0_r. apply range_for_empty.
  - destruct fuel as [|fuel]; [lia|].
    cbn [range_for ptr_eqb].
    destruct (Z.eqb_spec (iterated_advance T b (Z.of_nat k))
                (iterated_advance T b (Z.of_nat (k + S m)))) as [E|_].
    + unfold iterated_advance in E. nia.
    + replace (iterated_advance T (iterated_advance T b (Z.of_nat k)) 1)
        with (iterated_advance T b (Z.of_nat (S k)))
        by (unfold iterated_advance; lia).
      replace (k + S m)%nat with (S k + m)%nat by lia.
      rewrite IH by lia. reflexivity.
Qed.

(** C7. [begin] is the block address advanced by
    [sizeof(header_type)] bytes for a non-empty header and by 0 bytes
    for an empty one, and null for a null block.  [end] is [begin]
    advanced by the count [N] that the deleter of the pointer holds,
    in objects of the iterated type, when [begin] is not null, and null
    otherwise.  So a range-for over an empty handle visits nothing, and
    [begin] equals [end] when the count is 0. *)
Theorem begin_end_range
  (P : Ptr) (a n : Z) (d : Deleter) (p : ptr) (fuel : nat) :
  begin T {| get := Some a; get_deleter := d |}
  = Some (a + (if is_empty_header T then 0 else sizeof_header T))
  /\ begin T {| get := None; get_deleter := d |} = None
  /\ end_ T P
     = match begin T P with
       | Some b => Some (b + Count P * sizeof_iterated T)
       | None => None
       end
  /\ Count P = mCount (get_deleter P)
  /\ end_ T P
     = match begin T P with
       | Some b => Some (b + mCount (get_deleter P) * sizeof_iterated T)
       | None => None
       end
  /\ end_ T {| get := Some a; get_deleter := {| mCount := n |} |}
     = Some (a + (if is_empty_header T then 0 else sizeof_header T)
             + n * sizeof_iterated T)
  /\ end_ T {| get := None; get_deleter := d |} = None
  /\ range_for T fuel (begin T {| get := None; get_deleter := d |})
                      (end_ T {| get := None; get_deleter := d |})
     = Some []
  /\ begin T {| get := p; get_deleter := {| mCount := 0 |} |}
     = end_ T {| get := p; get_deleter := {| mCount := 0 |} |}
  /\ range_for T fuel
       (begin T {| get := p; get_deleter := {| mCount := 0 |} |})
       (end_ T {| get := p; get_deleter := {| mCount := 0 |} |})
     = Some [].
Proof.
  assert (E0 : begin T {| get := p; get_deleter := {| mCount := 0 |} |}
               = end_ T {| get := p; get_deleter := {| mCount := 0 |} |}).
  { unfold end_, begin, Count, GetCount, iterated_advance; simpl.
    destruct p as [b|]; [|reflexivity]. f_equal. lia. }
  assert (EN : end_ T P
               = match begin T P with
                 | Some b =>
                     Some (b + mCount (get_deleter P) * sizeof_iterated T)
                 | None => None
                 end).
  { unfold end_, Count, GetCount, iterated_advance.
    destruct (begin T P); reflexivity. }
  split; [reflexivity|]. split; [reflexivity|].
  split; [rewrite EN; reflexivity|]. split; [reflexivity|].
  split; [exact EN|]. split; [reflexivity|]. split; [reflexivity|].
  split; [destruct fuel; reflexivity|]. split; [exact E0|].
  rewrite <- E0. apply range_for_empty.
Qed.

(** From a non-null block the range-for visits the [Count] objects
    between [begin] and [end] in forward order. *)
Lemma range_for_begin_to_end a d fuel :
  1 <= sizeof_iterated T ->
  0 <= mCount d ->
  (Z.to_nat (mCount d) <= fuel)%nat ->
  let P := {| get := Some a; get_deleter := d |} in
  range_for T fuel (begin T P) (end_ T P)
  = Some (map (fun i => iterated_advance T (a + header_bytes T) (Z.of_nat i))
              (seq 0 (Z.to_nat (mCount d)))).
Proof.
  intros Hs Hn Hfuel P.
  pose proof (range_for_forward (a + header_bytes T) (Z.to_nat (mCount d))
                Hs 0%nat fuel Hfuel) as H.
  rewrite Nat.add_0_l, Z2Nat.id in H by exact Hn.
  unfold P, end_, begin, Count, GetCount; cbn [get get_deleter].
  rewrite <- H. do 2 f_equal.
  unfold iterated_advance; simpl. lia.
Qed.

(** C8. Subscripting computes [begin + ii] and designates what is
    there.  The count held by the deleter takes no part in it: for a
    non-null block the result is the same address for every index and
    every count, whether or not the index is below the count; at the
    count itself it is the address [end] returns. *)
Theorem subscript_unchecked (P : Ptr) (a ii : Z) (d : Deleter) :
  subscript T P ii
  = match begin T P with
    | Some b => Some (b + ii * sizeof_iterated T)
    | None => None
    end
  /\ subscript T {| get := Some a; get_deleter := d |} ii
     = Some (a + header_bytes T + ii * sizeof_iterated T)
  /\ subscript T {| get := get P; get_deleter := d |} ii = subscript T P ii
  /\ subscript T P (Count P) = end_ T P.
Proof.
  split; [reflexivity|]. split; [reflexivity|]. split.
  - unfold subscript, begin. reflexivity.
  - unfold subscript, end_. destruct (begin T P); reflexivity.
Qed.

End Iteration.

(** ** Allocation *)

Section Allocation.

Variable w : positive.
Variable heap_new : Z -> option Z.
Variable T : TypeInfo.

Lemma AllocateBytes_success enlarged p log0 :
  heap_new (Z.max (sizeof_managed T) enlarged) = Some p ->
  AllocateBytes w heap_new T enlarged CtorReturns log0
  = (Returned (Ptr_ctor w T (Some p) (Z.max (sizeof_managed T) enlarged)),
     log0 ++ [EvOperatorNew (Z.max (sizeof_managed T) enlarged);
              EvConstruct p]).
Proof.
  intros Hnew.
  unfold AllocateBytes, safenew, operator_new, global_operator_new,
    on_exception, construct, bind, emit, ret.
  rewrite Hnew, <- app_assoc. reflexivity.
Qed.

Lemma AllocateBytes_constructor_throws enlarged p log0 :
  heap_new (Z.max (sizeof_managed T) enlarged) = Some p ->
  AllocateBytes w heap_new T enlarged CtorThrows log0
  = (Thrown constructor_failure,
     log0 ++ [EvOperatorNew (Z.max (sizeof_managed T) enlarged);
              EvConstructThrow p; EvOperatorDelete p]).
Proof.
  intros Hnew.
  unfold AllocateBytes, safenew, operator_new, operator_delete,
    global_operator_new, global_operator_delete,
    on_exception, construct, bind, emit, throw, ret.
  rewrite Hnew, <- !app_assoc. reflexivity.
Qed.

Lemma AllocateBytes_bad_alloc enlarged args log0 :
  heap_new (Z.max (sizeof_managed T) enlarged) = None ->
  AllocateBytes w heap_new T enlarged args log0
  = (Thrown bad_alloc,
     log0 ++ [EvOperatorNew (Z.max (sizeof_managed T) enlarged)]).
Proof.
  intros Hnew.
  unfold AllocateBytes, safenew, operator_new, global_operator_new,
    bind, emit, throw.
  rewrite Hnew. reflexivity.
Qed.

(** Whatever happens afterwards, the global allocator is asked once,
    for [max(sizeof(Type), enlarged)] bytes. *)
Lemma AllocateBytes_one_request enlarged args :
  filter is_operator_new (snd (AllocateBytes w heap_new T enlarged args []))
  = [EvOperatorNew (Z.max (sizeof_managed T) enlarged)].
Proof.
  destruct (heap_new (Z.max (sizeof_managed T) enlarged)) as [p|] eqn:Hnew.
  - destruct args.
    + rewrite (AllocateBytes_success _ p) by exact Hnew. reflexivity.
    + rewrite (AllocateBytes_constructor_throws _ p) by exact Hnew.
      reflexivity.
  - rewrite AllocateBytes_bad_alloc by exact Hnew. reflexivity.
Qed.

(** C6. The callable returned by [AllocateBytes<T>(enlarged)] asks the
    allocator once, for exactly [max(sizeof(T), enlarged)] bytes, which
    is never less than [sizeof(T)]; it constructs [T] at the address it
    got, and the deleter of the resulting [Ptr] is built from the same
    size. *)
Theorem AllocateBytes_allocates_max enlarged p log0 :
  heap_new (Z.max (sizeof_managed T) enlarged) = Some p ->
  AllocateBytes w heap_new T enlarged CtorReturns log0
  = (Returned {| get := Some p;
                 get_deleter :=
                   Deleter_ctor w T (Z.max (sizeof_managed T) enlarged) |},
     log0 ++ [EvOperatorNew (Z.max (sizeof_managed T) enlarged);
              EvConstruct p])
  /\ sizeof_managed T <= Z.max (sizeof_managed T) enlarged
  /\ enlarged <= Z.max (sizeof_managed T) enlarged
  /\ forall args,
       filter is_operator_new
         (snd (AllocateBytes w heap_new T enlarged args []))
       = [EvOperatorNew (Z.max (sizeof_managed T) enlarged)].
Proof.
  intros Hnew. split; [|split; [|split]].
  - exact (AllocateBytes_success enlarged p log0 Hnew).
  - apply Z.le_max_l.
  - apply Z.le_max_r.
  - intros args. apply AllocateBytes_one_request.
Qed.

(** C9. When the constructor of the managed type throws after the
    allocation succeeded, no [Ptr] is formed: the exception leaves the
    callable, the memory has been given back by one call of
    [::operator delete] on the block, and no element destructor, header
    destructor or deleter ran. *)
Theorem AllocateBytes_constructor_failure enlarged p log0 :
  heap_new (Z.max (sizeof_managed T) enlarged) = Some p ->
  exists events,
    AllocateBytes w heap_new T enlarged CtorThrows log0
    = (Thrown constructor_failure, log0 ++ events)
    /\ events = [EvOperatorNew (Z.max (sizeof_managed T) enlarged);
                 EvConstructThrow p; EvOperatorDelete p]
    /\ occurrences is_operator_new events = 1%nat
    /\ occurrences (is_operator_delete_of p) events = 1%nat
    /\ occurrences is_element_destruction events = 0%nat
    /\ occurrences is_header_destruction events = 0%nat
    /\ occurrences is_base_delete events = 0%nat.
Proof.
  intros Hnew. eexists. split.
  - exact (AllocateBytes_constructor_throws enlarged p log0 Hnew).
  - unfold occurrences; simpl. rewrite Z.eqb_refl. repeat split.
Qed.

End Allocation.

(** ** The count after [AllocateCount] *)

Section AllocatedCount.

Variable w : positive.
Variable heap_new : Z -> option Z.

(** When the byte count does not overflow, [AllocateCount] is
    [AllocateBytes] of header bytes plus element bytes. *)
Lemma AllocateCount_bytes T count args :
  0 <= count * sizeof_element T ->
  0 <= header_bytes T ->
  header_bytes T + count * sizeof_element T < size_modulus w ->
  AllocateCount w heap_new T count args
  = AllocateBytes w heap_new T
      (header_bytes T + count * sizeof_element T) args.
Proof.
  intros Hm Hh Hfit. unfold AllocateCount, size_add, size_mul.
  rewrite (to_size_t_small w (count * _)) by lia.
  rewrite to_size_t_small by lia. reflexivity.
Qed.

Lemma div_one_short n e : 1 <= e -> 1 <= n -> (n * e - 1) / e = n - 1.
Proof.
  intros He Hn. symmetry.
  apply Z.div_unique with (r := e - 1); lia.
Qed.

(** Primary template: the deleter subtracts the size 1 of the empty
    header from a block that holds elements only, and the division
    rounds the count down to one less than the elements allocated. *)
Lemma AllocateCount_default_Traits s count p log0 :
  1 <= s -> 0 <= count ->
  Z.max count 1 * s < size_modulus w ->
  heap_new (Z.max count 1 * s) = Some p ->
  option_map Count
    (returned (AllocateCount w heap_new (default_Traits s) count
                 CtorReturns log0))
  = Some (Z.max count 1 - 1).
Proof.
  intros Hs Hc Hfit Hnew.
  assert (Hle : count * s <= Z.max count 1 * s)
    by (apply Z.mul_le_mono_nonneg_r; lia).
  assert (Hsize : Z.max (sizeof_managed (default_Traits s))
                    (header_bytes (default_Traits s)
                     + count * sizeof_element (default_Traits s))
                  = Z.max count 1 * s)
    by (cbn [default_Traits sizeof_managed header_bytes is_empty_header
               sizeof_element]; nia).
  rewrite AllocateCount_bytes
    by (cbn [default_Traits header_bytes is_empty_header sizeof_element];
        nia).
  rewrite (AllocateBytes_success w heap_new _ _ p)
    by (rewrite Hsize; exact Hnew).
  cbv [returned fst option_map Count Ptr_ctor get_deleter].
  rewrite Hsize, Deleter_ctor_exact
    by (cbn [default_Traits sizeof_header]; nia).
  cbn [default_Traits sizeof_header sizeof_element].
  f_equal. apply div_one_short; lia.
Qed.

(** A non-empty header whose managed type is exactly header plus one
    element: the count is the one requested, with a floor of 1. *)
Lemma AllocateCount_header T count p log0 :
  is_empty_header T = false ->
  1 <= sizeof_header T -> 1 <= sizeof_element T ->
  sizeof_managed T = sizeof_header T + sizeof_element T ->
  0 <= count ->
  sizeof_header T + Z.max count 1 * sizeof_element T < size_modulus w ->
  heap_new (sizeof_header T + Z.max count 1 * sizeof_element T) = Some p ->
  option_map Count
    (returned (AllocateCount w heap_new T count CtorReturns log0))
  = Some (Z.max count 1).
Proof.
  intros Hne Hh He HS Hc Hfit Hnew.
  assert (Hb : header_bytes T = sizeof_header T)
    by (unfold header_bytes; now rewrite Hne).
  assert (Hsize : Z.max (sizeof_managed T)
                    (header_bytes T + count * sizeof_element T)
                  = sizeof_header T + Z.max count 1 * sizeof_element T)
    by (rewrite Hb, HS; nia).
  rewrite AllocateCount_bytes by (rewrite ?Hb; nia).
  rewrite (AllocateBytes_success w heap_new _ _ p)
    by (rewrite Hsize; exact Hnew).
  cbv [returned fst option_map Count Ptr_ctor get_deleter].
  rewrite Hsize, Deleter_ctor_exact by nia.
  f_equal.
  replace (sizeof_header T + Z.max count 1 * sizeof_element T
           - sizeof_header T)
    with (Z.max count 1 * sizeof_element T) by ring.
  apply Z.div_mul. lia.
Qed.

End AllocatedCount.

(** C2, as the code behaves.  With the primary template for a 4-byte
    [T] on a 64-bit target, [AllocateCount<T>(count)] for the counts
    0, 1, 5 and 100 gives a [Ptr] whose [Count] is 0, 0, 4 and 99: one
    less than the count requested whenever that is positive, although
    the block was sized for [count] elements. *)
Theorem AllocateCount_default_Traits_one_short :
  map (fun count =>
         option_map Count
           (returned (AllocateCount 64 (fun _ => Some 4096)
                        (default_Traits 4) count CtorReturns [])))
      [0; 1; 5; 100]
  = [Some 0; Some 0; Some 4; Some 99].
Proof. vm_compute. reflexivity. Qed.

(** With a header the same counts come out as the claim has them. *)
Example AllocateCount_header_counts :
  map (fun count =>
         option_map Count
           (returned (AllocateCount 64 (fun _ => Some 4096)
                        int_header_int_elements count CtorReturns [])))
      [0; 1; 5; 100]
  = [Some 1; Some 1; Some 5; Some 100].
Proof. vm_compute. reflexivity. Qed.

(** ** The static assertions *)

Section StaticAssertions.

Variable T : TypeInfo.

(** What the second assertion accepts as it is written: any offset that
    differs from the 0 or 1 the emptiness test converts to. *)
Lemma static_assert_offset_as_written :
  static_assert_offset T
  = negb (offsetof_elements T =? bool_to_size (is_empty_header T))
    && negb (sizeof_header T =? 0).
Proof.
  unfold static_assert_offset, static_assert_offset_operand.
  destruct (offsetof_elements T =? bool_to_size (is_empty_header T));
    reflexivity.
Qed.

Lemma static_assert_size_rejects :
  sizeof_Overlay T <> sizeof_managed T -> Deleter_instantiates T = false.
Proof.
  intros Hne. unfold Deleter_instantiates, static_assert_size.
  destruct (Z.eqb_spec (sizeof_Overlay T) (sizeof_managed T)); [lia|].
  reflexivity.
Qed.

(** C3, amended.  A specialisation for which [Deleter] instantiates has
    passed the first assertion: the overlay, made of the header as a
    base and a one-element array, has the size of the managed type.  A
    specialisation where the two sizes differ does not compile. *)
Theorem static_asserts_enforce_overlay_size :
  Deleter_instantiates T = true -> sizeof_Overlay T = sizeof_managed T.
Proof.
  intros H. unfold Deleter_instantiates in H.
  apply andb_true_iff in H as [Hsize _].
  now apply Z.eqb_eq.
Qed.

End StaticAssertions.

(** The second assertion passes for a header of one byte followed by
    seven bytes of padding, although the offset of the array is neither
    0 nor [sizeof(header_type)]. *)
Lemma static_assert_offset_precedence :
  static_assert_offset char_header_double_elements = true
  /\ offset_matches_header char_header_double_elements = false.
Proof. split; reflexivity. Qed.

(** C3 does not hold as the sum of sizes and the offset of the array.
    Both specialisations below pass both assertions.  In the first the
    sizes of header and element do not add up to the size of the managed
    type, because of padding after the array; in the second, with
    padding before the array, neither the sizes add up nor is the offset
    of the array the size of the header. *)
Lemma static_asserts_accept_padding :
  (Deleter_instantiates double_header_char_elements = true
   /\ sizeof_header double_header_char_elements
      + 1 * sizeof_element double_header_char_elements
      <> sizeof_managed double_header_char_elements)
  /\ (Deleter_instantiates char_header_double_elements = true
      /\ sizeof_header char_header_double_elements
         + 1 * sizeof_element char_header_double_elements
         <> sizeof_managed char_header_double_elements
      /\ offsetof_elements char_header_double_elements
         <> (if is_empty_header char_header_double_elements
             then 0
             else sizeof_header char_header_double_elements)).
Proof. repeat split; simpl; lia. Qed.

(** ** Concrete runs *)

(** Five elements of four bytes behind a four-byte header at address
    1000 are destroyed from the last to the first, then the header,
    then the block. *)
Lemma Deleter_call_order_witness :
  0 <= mCount {| mCount := 5 |}
  /\ (Z.to_nat (mCount {| mCount := 5 |}) < 6)%nat
  /\ Deleter_call int_header_int_elements 6 {| mCount := 5 |} (Some 1000)
     = Some [EvDestroyElement 1020; EvDestroyElement 1016;
             EvDestroyElement 1012; EvDestroyElement 1008;
             EvDestroyElement 1004;
             EvDestroyHeader 1000; EvBaseDelete 1000].
Proof.
  assert (H1 : 0 <= mCount {| mCount := 5 |}) by (simpl; lia).
  assert (H2 : (Z.to_nat (mCount {| mCount := 5 |}) < 6)%nat)
    by (simpl; lia).
  split; [exact H1|]. split; [exact H2|].
  destruct (Deleter_call_order int_header_int_elements
              {| mCount := 5 |} 1000 6 H1 H2) as [log [Hrun [Hlog _]]].
  rewrite Hrun, Hlog. reflexivity.
Defined.


(** A default-constructed [Ptr] to a 4-byte type on a 64-bit target. *)
Lemma Count_of_default_Ptr_witness :
  1 <= sizeof_header (default_Traits 4)
  /\ 1 <= sizeof_element (default_Traits 4)
  /\ sizeof_header (default_Traits 4) + sizeof_element (default_Traits 4)
     <= size_modulus 64
  /\ Count (Ptr_default 64 (default_Traits 4)) = 4611686018427387903
  /\ 0 < Count (Ptr_default 64 (default_Traits 4)).
Proof.
  assert (H1 : 1 <= sizeof_header (default_Traits 4)) by (simpl; lia).
  assert (H2 : 1 <= sizeof_element (default_Traits 4)) by (simpl; lia).
  assert (H3 : sizeof_header (default_Traits 4)
               + sizeof_element (default_Traits 4) <= size_modulus 64)
    by (vm_compute; discriminate).
  repeat (split; [assumption|]).
  destruct (Count_of_default_Ptr 64 (default_Traits 4) H1 H2 H3)
    as [_ [_ [Hcount [Hptr [Hpos _]]]]].
  split; [|exact Hpos].
  rewrite Hptr, Hcount. reflexivity.
Defined.

(** A request of 3 bytes for an 8-byte managed type. *)
Lemma AllocateBytes_allocates_max_witness :
  (fun _ : Z => Some 4096)
    (Z.max (sizeof_managed int_header_int_elements) 3) = Some 4096
  /\ AllocateBytes 64 (fun _ => Some 4096) int_header_int_elements 3
       CtorReturns []
     = (Returned {| get := Some 4096; get_deleter := {| mCount := 1 |} |},
        [EvOperatorNew 8; EvConstruct 4096]).
Proof.
  split; [reflexivity|].
  destruct (AllocateBytes_allocates_max 64 (fun _ => Some 4096)
              int_header_int_elements 3 4096 [] eq_refl) as [Hrun _].
  rewrite Hrun. reflexivity.
Defined.

Lemma AllocateBytes_constructor_failure_witness :
  (fun _ : Z => Some 4096)
    (Z.max (sizeof_managed int_header_int_elements) 40) = Some 4096
  /\ AllocateBytes 64 (fun _ => Some 4096) int_header_int_elements 40
       CtorThrows []
     = (Thrown constructor_failure,
        [EvOperatorNew 40; EvConstructThrow 4096; EvOperatorDelete 4096]).
Proof.
  split; [reflexivity|].
  destruct (AllocateBytes_constructor_failure 64 (fun _ => Some 4096)
              int_header_int_elements 40 4096 [] eq_refl)
    as [events [Hrun [Hevents _]]].
  rewrite Hrun, Hevents. reflexivity.
Defined.

Lemma static_asserts_enforce_overlay_size_witness :
  Deleter_instantiates int_header_int_elements = true
  /\ sizeof_Overlay int_header_int_elements
     = sizeof_managed int_header_int_elements.
Proof.
  split; [reflexivity|].
  apply static_asserts_enforce_overlay_size. reflexivity.
Defined.

(** Three elements are visited in forward order. *)
Example range_for_three_elements :
  let P := {| get := Some 1000; get_deleter := {| mCount := 3 |} |} in
  range_for int_header_int_elements 3
    (begin int_header_int_elements P) (end_ int_header_int_elements P)
  = Some [1004; 1008; 1012].
Proof. reflexivity. Qed.

(** * Further properties of the allocation helpers and the deleter *)

Lemma div_fits d e :
  1 <= e -> 0 <= d -> 0 <= d / e /\ d / e * e <= d < (d / e + 1) * e.
Proof.
  intros He Hd.
  pose proof (Z.div_pos d e Hd ltac:(lia)).
  pose proof (Z.mod_pos_bound d e ltac:(lia)).
  pose proof (Z.div_mod d e ltac:(lia)).
  lia.
Qed.

Lemma descending_range i n : In i (descending n) -> 0 <= i < Z.of_nat n.
Proof.
  unfold descending. intros H.
  apply in_map_iff in H as [k [<- Hk]].
  apply in_rev, in_seq in Hk. lia.
Qed.

Section CountedBlocks.

Variable w : positive.
Variable heap_new : Z -> option Z.

Lemma Deleter_ctor_nonneg T size :
  1 <= sizeof_element T -> 0 <= GetCount (Deleter_ctor w T size).
Proof.
  intros He. unfold GetCount, Deleter_ctor, size_sub; simpl.
  apply Z.div_pos; [apply to_size_t_range | lia].
Qed.

(** X1. For a size that covers the header, the count stored by the
    deleter is the number of whole elements that fit behind the header:
    header and that many elements lie within [size] bytes, and one more
    element would not. *)
Theorem Deleter_ctor_whole_elements T size :
  0 <= sizeof_header T <= size ->
  size < size_modulus w ->
  1 <= sizeof_element T ->
  0 <= GetCount (Deleter_ctor w T size)
  /\ sizeof_header T + GetCount (Deleter_ctor w T size) * sizeof_element T
     <= size
  /\ size < sizeof_header T
            + (GetCount (Deleter_ctor w T size) + 1) * sizeof_element T.
Proof.
  intros Hh Hs He.
  rewrite Deleter_ctor_exact by lia.
  pose proof (div_fits (size - sizeof_header T) _ He ltac:(lia)).
  lia.
Qed.

(** X2. For a non-empty header and a managed type that is exactly the
    header and one element, [AllocateCount<T>(count)] asks for the
    header and [max(count, 1)] elements, constructs [T] there, and
    returns a non-null [Ptr] whose [Count] is [max(count, 1)]: the block
    is exactly as large as header and [Count] elements. *)
Theorem AllocateCount_header_round_trip T count p log0 :
  is_empty_header T = false ->
  1 <= sizeof_header T -> 1 <= sizeof_element T ->
  sizeof_managed T = sizeof_header T + sizeof_element T ->
  0 <= count ->
  sizeof_header T + Z.max count 1 * sizeof_element T < size_modulus w ->
  heap_new (sizeof_header T + Z.max count 1 * sizeof_element T) = Some p ->
  exists P,
    AllocateCount w heap_new T count CtorReturns log0
    = (Returned P,
       log0 ++ [EvOperatorNew
                  (sizeof_header T + Z.max count 1 * sizeof_element T);
                EvConstruct p])
    /\ get P = Some p
    /\ Count P = Z.max count 1.
Proof.
  intros Hne Hh He HS Hc Hfit Hnew.
  assert (Hb : header_bytes T = sizeof_header T)
    by (unfold header_bytes; now rewrite Hne).
  assert (Hsize : Z.max (sizeof_managed T)
                    (header_bytes T + count * sizeof_element T)
                  = sizeof_header T + Z.max count 1 * sizeof_element T)
    by (rewrite Hb, HS; nia).
  rewrite AllocateCount_bytes by (rewrite ?Hb; nia).
  rewrite (AllocateBytes_success w heap_new _ _ p)
    by (rewrite Hsize; exact Hnew).
  rewrite Hsize. eexists. split; [reflexivity|]. split; [reflexivity|].
  cbv [Count Ptr_ctor get_deleter].
  rewrite Deleter_ctor_exact by nia.
  replace (sizeof_header T + Z.max count 1 * sizeof_element T
           - sizeof_header T)
    with (Z.max count 1 * sizeof_element T) by ring.
  apply Z.div_mul. lia.
Qed.

(** X3. With the primary template, [AllocateCount<T>(count)] asks for
    [max(count, 1)] objects of type [T] and returns a non-null [Ptr]
    whose [Count] is one less: the block has room for one more element
    than [Count] reports. *)
Theorem AllocateCount_primary_one_short s count p log0 :
  1 <= s -> 0 <= count ->
  Z.max count 1 * s < size_modulus w ->
  heap_new (Z.max count 1 * s) = Some p ->
  exists P,
    AllocateCount w heap_new (default_Traits s) count CtorReturns log0
    = (Returned P,
       log0 ++ [EvOperatorNew (Z.max count 1 * s); EvConstruct p])
    /\ get P = Some p
    /\ Count P = Z.max count 1 - 1
    /\ (Count P + 1) * s = Z.max count 1 * s.
Proof.
  intros Hs Hc Hfit Hnew.
  assert (Hle : count * s <= Z.max count 1 * s)
    by (apply Z.mul_le_mono_nonneg_r; lia).
  assert (Hsize : Z.max (sizeof_managed (default_Traits s))
                    (header_bytes (default_Traits s)
                     + count * sizeof_element (default_Traits s))
                  = Z.max count 1 * s)
    by (cbn [default_Traits sizeof_managed header_bytes is_empty_header
               sizeof_element]; nia).
  rewrite AllocateCount_bytes
    by (cbn [default_Traits header_bytes is_empty_header sizeof_element];
        nia).
  rewrite (AllocateBytes_success w heap_new _ _ p)
    by (rewrite Hsize; exact Hnew).
  rewrite Hsize.
  assert (HC : Count (Ptr_ctor w (default_Traits s) (Some p)
                        (Z.max count 1 * s))
               = Z.max count 1 - 1).
  { cbv [Count Ptr_ctor get_deleter].
    rewrite Deleter_ctor_exact
      by (cbn [default_Traits sizeof_header]; nia).
    cbn [default_Traits sizeof_header sizeof_element].
    apply div_one_short; lia. }
  eexists. split; [reflexivity|]. split; [reflexivity|].
  split; [exact HC|]. rewrite HC. ring.
Qed.

(** X4. With a non-empty header, a request for no element is a request
    for one: when the managed type covers the header and one element,
    [AllocateCount<T>(0)] and [AllocateCount<T>(1)] are the same
    computation. *)
Theorem AllocateCount_header_floor T args :
  is_empty_header T = false ->
  0 <= sizeof_header T -> 0 <= sizeof_element T ->
  sizeof_header T + sizeof_element T <= sizeof_managed T ->
  sizeof_header T + sizeof_element T < size_modulus w ->
  AllocateCount w heap_new T 0 args = AllocateCount w heap_new T 1 args.
Proof.
  intros Hne Hh He HS Hfit.
  assert (Hb : header_bytes T = sizeof_header T)
    by (unfold header_bytes; now rewrite Hne).
  rewrite !AllocateCount_bytes by (rewrite ?Hb; lia).
  unfold AllocateBytes, safenew, operator_new, operator_delete.
  rewrite Hb, !Z.max_l by lia. reflexivity.
Qed.

(** X5. The byte count of [AllocateCount] is computed in [size_t]
    without an overflow check: when [q] elements fill [2^w] bytes,
    asking for [q] more elements is the same computation as asking for
    none more. *)
Theorem AllocateCount_wraps T count q args :
  sizeof_element T * q = size_modulus w ->
  AllocateCount w heap_new T (count + q) args
  = AllocateCount w heap_new T count args.
Proof.
  intros Hq. unfold AllocateCount. f_equal.
  unfold size_mul, to_size_t.
  replace ((count + q) * sizeof_element T)
    with (count * sizeof_element T + 1 * size_modulus w)
    by (rewrite <- Hq; ring).
  rewrite Z.mod_add by (pose proof (size_modulus_pos w); lia).
  reflexivity.
Qed.

End CountedBlocks.

Section Lifecycle.

Variable w : positive.
Variable heap_new : Z -> option Z.
Variable T : TypeInfo.

(** The log of a teardown of [n] elements that does not run out of
    fuel. *)
Lemma Deleter_call_log d a fuel :
  0 <= mCount d ->
  (Z.to_nat (mCount d) < fuel)%nat ->
  Deleter_call T fuel d (Some a)
  = Some (destroyed_from T (a + offsetof_elements T) (Z.to_nat (mCount d))
          ++ [EvDestroyHeader a; EvBaseDelete a]).
Proof.
  intros Hn Hfuel. unfold Deleter_call, element_address.
  rewrite <- (Z2Nat.id (mCount d)) at 1 2 by exact Hn.
  rewrite destroy_elements_descending by exact Hfuel. reflexivity.
Qed.

(** X6. Whatever the allocator answers and whatever the constructor
    does, a call of [AllocateBytes<T>(enlarged)(args...)] ends in one of
    three ways.  It returns a [Ptr] that holds the block the allocator
    gave, never a null one, and nothing was released.  Or the allocator
    refused: [bad_alloc] leaves the call and nothing but the request
    happened.  Or the constructor threw: its exception leaves the call
    and the block was released once. *)
Theorem AllocateBytes_outcomes enlarged args :
  match AllocateBytes w heap_new T enlarged args [] with
  | (Returned P, log) =>
      exists p,
        heap_new (Z.max (sizeof_managed T) enlarged) = Some p
        /\ get P = Some p
        /\ args = CtorReturns
        /\ occurrences (is_operator_delete_of p) log = 0%nat
  | (Thrown bad_alloc, log) =>
      heap_new (Z.max (sizeof_managed T) enlarged) = None
      /\ log = [EvOperatorNew (Z.max (sizeof_managed T) enlarged)]
  | (Thrown constructor_failure, log) =>
      exists p,
        heap_new (Z.max (sizeof_managed T) enlarged) = Some p
        /\ args = CtorThrows
        /\ occurrences (is_operator_delete_of p) log = 1%nat
        /\ ~ In (EvConstruct p) log
  end.
Proof.
  destruct (heap_new (Z.max (sizeof_managed T) enlarged)) as [p|] eqn:Hnew.
  - destruct args.
    + rewrite (AllocateBytes_success w heap_new T enlarged p []) by exact Hnew.
      exists p. repeat split.
    + rewrite (AllocateBytes_constructor_throws w heap_new T enlarged p [])
        by exact Hnew.
      exists p. split; [reflexivity|]. split; [reflexivity|]. split.
      * unfold occurrences; simpl. rewrite Z.eqb_refl. reflexivity.
      * simpl. intros [H|[H|[H|[]]]]; discriminate H.
  - rewrite (AllocateBytes_bad_alloc w heap_new T enlarged args [])
      by exact Hnew.
    split; reflexivity.
Qed.

(** X7. A [Ptr] made by [AllocateBytes] and then destroyed: the
    allocator was asked once, the constructor ran once at the block,
    and the teardown destroys [Count] elements, then the header once,
    and ends with the one call of the base deleter on that block. *)
Theorem AllocateBytes_then_destroy enlarged p fuel :
  1 <= sizeof_element T ->
  heap_new (Z.max (sizeof_managed T) enlarged) = Some p ->
  (Z.to_nat (GetCount (Deleter_ctor w T (Z.max (sizeof_managed T) enlarged)))
   < fuel)%nat ->
  exists P destroyed,
    AllocateBytes w heap_new T enlarged CtorReturns []
    = (Returned P,
       [EvOperatorNew (Z.max (sizeof_managed T) enlarged); EvConstruct p])
    /\ Ptr_destroy T fuel P
       = Some (destroyed ++ [EvDestroyHeader p; EvBaseDelete p])
    /\ Z.of_nat (length destroyed) = Count P
    /\ forallb is_element_destruction destroyed = true
    /\ occurrences is_header_destruction
         (destroyed ++ [EvDestroyHeader p; EvBaseDelete p]) = 1%nat
    /\ occurrences is_base_delete
         (destroyed ++ [EvDestroyHeader p; EvBaseDelete p]) = 1%nat.
Proof.
  intros He Hnew Hfuel.
  set (size := Z.max (sizeof_managed T) enlarged) in *.
  pose proof (Deleter_ctor_nonneg w T size He) as Hn.
  exists (Ptr_ctor w T (Some p) size).
  exists (destroyed_from T (p + offsetof_elements T)
            (Z.to_nat (GetCount (Deleter_ctor w T size)))).
  split; [|split; [|split; [|split; [|split]]]].
  - exact (AllocateBytes_success w heap_new T enlarged p [] Hnew).
  - unfold Ptr_destroy, Ptr_ctor; cbn [get get_deleter].
    apply Deleter_call_log; assumption.
  - rewrite destroyed_from_length.
    unfold Count, Ptr_ctor; cbn [get_deleter]. lia.
  - unfold destroyed_from. apply forallb_forall.
    intros e H. apply in_map_iff in H as [i [<- _]]. reflexivity.
  - unfold occurrences. rewrite filter_app.
    rewrite destroyed_from_only_elements by reflexivity. reflexivity.
  - unfold occurrences. rewrite filter_app.
    rewrite destroyed_from_only_elements by reflexivity. reflexivity.
Qed.

(** X8. When the array of the overlay starts no later than the size of
    the header, the teardown of a deleter built from a size that covers
    the header destroys only objects that lie inside the block of that
    size: none before the array, none past the end of the block. *)
Theorem teardown_inside_block size p fuel :
  0 <= offsetof_elements T <= sizeof_header T ->
  sizeof_header T <= size < size_modulus w ->
  1 <= sizeof_element T ->
  (Z.to_nat (GetCount (Deleter_ctor w T size)) < fuel)%nat ->
  exists log,
    Deleter_call T fuel (Deleter_ctor w T size) (Some p) = Some log
    /\ forall a,
         In (EvDestroyElement a) log ->
         p + offsetof_elements T <= a
         /\ a + sizeof_element T <= p + size.
Proof.
  intros Hoff Hs He Hfuel.
  pose proof (Deleter_ctor_nonneg w T size He) as Hn.
  eexists. split.
  - apply Deleter_call_log; assumption.
  - intros a Ha. apply in_app_or in Ha as [Ha|Ha].
    + unfold destroyed_from in Ha.
      apply in_map_iff in Ha as [i [Hi Hin]].
      injection Hi as <-.
      apply descending_range in Hin.
      rewrite Z2Nat.id in Hin by exact Hn.
      change (mCount (Deleter_ctor w T size))
        with (GetCount (Deleter_ctor w T size)) in Hin.
      rewrite Deleter_ctor_exact in Hin by lia.
      pose proof (div_fits (size - sizeof_header T) _ He ltac:(lia)).
      nia.
    + simpl in Ha. destruct Ha as [H|[H|[]]]; discriminate H.
Qed.

End Lifecycle.

Section ElementAccess.

Variable T : TypeInfo.

Lemma nth_error_map_seq {A} (f : nat -> A) n i :
  (i < n)%nat -> nth_error (map f (seq 0 n)) i = Some (f i).
Proof.
  intros Hi. rewrite nth_error_map, nth_error_seq.
  destruct (Nat.ltb_spec i n); [reflexivity | lia].
Qed.

(** X9. A range-for over a non-null [Ptr] ends after visiting exactly
    [Count] objects, and the [i]-th object it visits is the one that
    subscripting with [i] designates. *)
Theorem range_for_agrees_with_subscript a d fuel :
  1 <= sizeof_iterated T ->
  0 <= mCount d ->
  (Z.to_nat (mCount d) <= fuel)%nat ->
  exists visited,
    range_for T fuel
      (begin T {| get := Some a; get_deleter := d |})
      (end_ T {| get := Some a; get_deleter := d |})
    = Some visited
    /\ Z.of_nat (length visited)
       = Count {| get := Some a; get_deleter := d |}
    /\ forall i,
         (i < length visited)%nat ->
         nth_error visited i
         = subscript T {| get := Some a; get_deleter := d |} (Z.of_nat i).
Proof.
  intros Hs Hn Hfuel.
  eexists. split; [|split].
  - exact (range_for_begin_to_end T a d fuel Hs Hn Hfuel).
  - rewrite length_map, length_seq. unfold Count, GetCount; simpl. lia.
  - intros i Hi. rewrite length_map, length_seq in Hi.
    rewrite nth_error_map_seq by exact Hi. reflexivity.
Qed.

End ElementAccess.

Section BlockBounds.

Variable w : positive.
Variable T : TypeInfo.

Lemma header_bytes_bounds :
  0 <= sizeof_header T -> 0 <= header_bytes T <= sizeof_header T.
Proof. unfold header_bytes. destruct (is_empty_header T); lia. Qed.

(** X10. For a [Ptr] built from a size that covers the header, with
    iterated objects as large as the elements, every index below
    [Count] designates an object that lies inside the block, and so
    does the whole range from [begin] to [end]. *)
Theorem subscript_inside_block size p i :
  0 <= sizeof_header T <= size ->
  size < size_modulus w ->
  1 <= sizeof_element T ->
  sizeof_iterated T = sizeof_element T ->
  0 <= i < Count (Ptr_ctor w T (Some p) size) ->
  exists a b e,
    subscript T (Ptr_ctor w T (Some p) size) i = Some a
    /\ begin T (Ptr_ctor w T (Some p) size) = Some b
    /\ end_ T (Ptr_ctor w T (Some p) size) = Some e
    /\ p <= b <= a
    /\ a + sizeof_iterated T <= e
    /\ e <= p + size.
Proof.
  intros Hh Hs He Hit Hi.
  pose proof (header_bytes_bounds ltac:(lia)) as Hb.
  unfold Count, Ptr_ctor in Hi; cbn [get_deleter] in Hi.
  rewrite Deleter_ctor_exact in Hi by lia.
  pose proof (div_fits (size - sizeof_header T) _ He ltac:(lia)) as Hfit.
  do 3 eexists.
  split; [reflexivity|]. split; [reflexivity|]. split; [reflexivity|].
  unfold iterated_advance, Count, Ptr_ctor; cbn [get_deleter].
  rewrite Deleter_ctor_exact by lia.
  rewrite Hit. nia.
Qed.

End BlockBounds.

Section TeardownAndIteration.

Variable T : TypeInfo.

(** X11. When the array of the overlay starts where [begin] points and
    iterated objects are as large as elements, the teardown destroys
    exactly the objects a range-for visits, in the opposite order,
    before it destroys the header and calls the base deleter. *)
Theorem teardown_reverses_iteration a d fuel :
  offsetof_elements T = header_bytes T ->
  sizeof_iterated T = sizeof_element T ->
  1 <= sizeof_element T ->
  0 <= mCount d ->
  (Z.to_nat (mCount d) < fuel)%nat ->
  exists visited,
    range_for T fuel
      (begin T {| get := Some a; get_deleter := d |})
      (end_ T {| get := Some a; get_deleter := d |})
    = Some visited
    /\ Deleter_call T fuel d (Some a)
       = Some (map EvDestroyElement (rev visited)
               ++ [EvDestroyHeader a; EvBaseDelete a]).
Proof.
  intros Hoff Hit He Hn Hfuel.
  eexists. split.
  - apply range_for_begin_to_end; lia.
  - rewrite Deleter_call_log by assumption.
    f_equal. unfold destroyed_from, descending.
    rewrite <- map_rev, !map_map.
    f_equal. apply map_ext. intros i.
    unfold iterated_advance. rewrite Hoff, Hit. reflexivity.
Qed.

(** X12. The second static assertion, as it is written, accepts every
    layout whose array offset is 0 behind an empty header or the size
    of the header behind a non-empty one. *)
Theorem static_assert_offset_accepts_intended :
  offset_matches_header T = true ->
  1 <= sizeof_header T ->
  static_assert_offset T = true.
Proof.
  unfold offset_matches_header, header_bytes. intros Hm Hh.
  apply Z.eqb_eq in Hm.
  rewrite static_assert_offset_as_written.
  apply andb_true_iff. split; apply negb_true_iff, Z.eqb_neq.
  - rewrite Hm. destruct (is_empty_header T); simpl; lia.
  - lia.
Qed.

End TeardownAndIteration.

(** ** Concrete runs of the further properties *)

(** A block of 24 bytes behind a four-byte header holds five elements
    of four bytes. *)
Lemma Deleter_ctor_whole_elements_witness :
  0 <= sizeof_header int_header_int_elements <= 24
  /\ 24 < size_modulus 64
  /\ 1 <= sizeof_element int_header_int_elements
  /\ GetCount (Deleter_ctor 64 int_header_int_elements 24) = 5.
Proof.
  assert (H1 : 0 <= sizeof_header int_header_int_elements <= 24)
    by by_evaluation.
  assert (H2 : 24 < size_modulus 64) by by_evaluation.
  assert (H3 : 1 <= sizeof_element int_header_int_elements)
    by by_evaluation.
  repeat (split; [assumption|]).
  pose proof (Deleter_ctor_whole_elements 64 int_header_int_elements 24
                H1 H2 H3) as [_ [Hlo Hhi]].
  cbn [sizeof_header sizeof_element int_header_int_elements] in Hlo, Hhi.
  lia.
Defined.

Lemma AllocateCount_header_round_trip_witness :
  is_empty_header int_header_int_elements = false
  /\ 1 <= sizeof_header int_header_int_elements
  /\ 1 <= sizeof_element int_header_int_elements
  /\ sizeof_managed int_header_int_elements
     = sizeof_header int_header_int_elements
       + sizeof_element int_header_int_elements
  /\ 0 <= 0
  /\ sizeof_header int_header_int_elements
     + Z.max 0 1 * sizeof_element int_header_int_elements
     < size_modulus 64
  /\ (fun _ : Z => Some 4096)
       (sizeof_header int_header_int_elements
        + Z.max 0 1 * sizeof_element int_header_int_elements) = Some 4096
  /\ exists P,
       AllocateCount 64 (fun _ => Some 4096) int_header_int_elements 0
         CtorReturns []
       = (Returned P, [EvOperatorNew 8; EvConstruct 4096])
       /\ get P = Some 4096
       /\ Count P = 1.
Proof.
  assert (H6 : sizeof_header int_header_int_elements
               + Z.max 0 1 * sizeof_element int_header_int_elements
               < size_modulus 64) by by_evaluation.
  repeat (split; [by_evaluation|]).
  exact (AllocateCount_header_round_trip 64 (fun _ => Some 4096)
           int_header_int_elements 0 4096 []
           eq_refl ltac:(by_evaluation) ltac:(by_evaluation) eq_refl
           ltac:(by_evaluation) H6 eq_refl).
Defined.

Lemma AllocateCount_primary_one_short_witness :
  1 <= 4
  /\ 0 <= 5
  /\ Z.max 5 1 * 4 < size_modulus 64
  /\ (fun _ : Z => Some 4096) (Z.max 5 1 * 4) = Some 4096
  /\ exists P,
       AllocateCount 64 (fun _ => Some 4096) (default_Traits 4) 5
         CtorReturns []
       = (Returned P, [EvOperatorNew 20; EvConstruct 4096])
       /\ get P = Some 4096
       /\ Count P = 4
       /\ (Count P + 1) * 4 = 20.
Proof.
  assert (H3 : Z.max 5 1 * 4 < size_modulus 64) by by_evaluation.
  repeat (split; [by_evaluation|]).
  exact (AllocateCount_primary_one_short 64 (fun _ => Some 4096) 4 5 4096 []
           ltac:(by_evaluation) ltac:(by_evaluation) H3 eq_refl).
Defined.

Lemma AllocateCount_header_floor_witness :
  is_empty_header int_header_int_elements = false
  /\ 0 <= sizeof_header int_header_int_elements
  /\ 0 <= sizeof_element int_header_int_elements
  /\ sizeof_header int_header_int_elements
     + sizeof_element int_header_int_elements
     <= sizeof_managed int_header_int_elements
  /\ sizeof_header int_header_int_elements
     + sizeof_element int_header_int_elements < size_modulus 64
  /\ AllocateCount 64 (fun _ => Some 4096) int_header_int_elements 0
       CtorReturns
     = AllocateCount 64 (fun _ => Some 4096) int_header_int_elements 1
         CtorReturns.
Proof.
  assert (H5 : sizeof_header int_header_int_elements
               + sizeof_element int_header_int_elements < size_modulus 64)
    by by_evaluation.
  repeat (split; [by_evaluation|]).
  exact (AllocateCount_header_floor 64 (fun _ => Some 4096)
           int_header_int_elements CtorReturns
           eq_refl ltac:(by_evaluation) ltac:(by_evaluation)
           ltac:(by_evaluation) H5).
Defined.

(** On a 64-bit target [2^62] elements of four bytes fill [2^64]
    bytes. *)
Lemma AllocateCount_wraps_witness :
  sizeof_element int_header_int_elements * 4611686018427387904
  = size_modulus 64
  /\ AllocateCount 64 (fun _ => Some 4096) int_header_int_elements
       (1 + 4611686018427387904) CtorReturns
     = AllocateCount 64 (fun _ => Some 4096) int_header_int_elements 1
         CtorReturns.
Proof.
  assert (H : sizeof_element int_header_int_elements * 4611686018427387904
              = size_modulus 64) by by_evaluation.
  split; [exact H|].
  exact (AllocateCount_wraps 64 (fun _ => Some 4096)
           int_header_int_elements 1 4611686018427387904 CtorReturns H).
Defined.

(** A block of 24 bytes at 4096: five elements are destroyed, then the
    header, then the block. *)
Lemma AllocateBytes_then_destroy_witness :
  1 <= sizeof_element int_header_int_elements
  /\ (fun _ : Z => Some 4096)
       (Z.max (sizeof_managed int_header_int_elements) 24) = Some 4096
  /\ (Z.to_nat
        (GetCount
           (Deleter_ctor 64 int_header_int_elements
              (Z.max (sizeof_managed int_header_int_elements) 24)))
      < 6)%nat
  /\ exists P destroyed,
       AllocateBytes 64 (fun _ => Some 4096) int_header_int_elements 24
         CtorReturns []
       = (Returned P, [EvOperatorNew 24; EvConstruct 4096])
       /\ Ptr_destroy int_header_int_elements 6 P
          = Some (destroyed ++ [EvDestroyHeader 4096; EvBaseDelete 4096])
       /\ Z.of_nat (length destroyed) = Count P.
Proof.
  assert (H1 : 1 <= sizeof_element int_header_int_elements)
    by by_evaluation.
  assert (H3 : (Z.to_nat
                  (GetCount
                     (Deleter_ctor 64 int_header_int_elements
                        (Z.max (sizeof_managed int_header_int_elements) 24)))
                < 6)%nat) by by_evaluation.
  split; [exact H1|]. split; [reflexivity|]. split; [exact H3|].
  destruct (AllocateBytes_then_destroy 64 (fun _ => Some 4096)
              int_header_int_elements 24 4096 6 H1 eq_refl H3)
    as [P [destroyed [Hrun [Hdestroy [Hlen _]]]]].
  exists P, destroyed. repeat split; assumption.
Defined.

Lemma teardown_inside_block_witness :
  0 <= offsetof_elements int_header_int_elements
    <= sizeof_header int_header_int_elements
  /\ sizeof_header int_header_int_elements <= 24 < size_modulus 64
  /\ 1 <= sizeof_element int_header_int_elements
  /\ (Z.to_nat (GetCount (Deleter_ctor 64 int_header_int_elements 24))
      < 6)%nat
  /\ exists log,
       Deleter_call int_header_int_elements 6
         (Deleter_ctor 64 int_header_int_elements 24) (Some 4096)
       = Some log
       /\ forall a,
            In (EvDestroyElement a) log ->
            4096 + 4 <= a /\ a + 4 <= 4096 + 24.
Proof.
  assert (H1 : 0 <= offsetof_elements int_header_int_elements
               <= sizeof_header int_header_int_elements) by by_evaluation.
  assert (H2 : sizeof_header int_header_int_elements <= 24
               < size_modulus 64) by by_evaluation.
  assert (H3 : 1 <= sizeof_element int_header_int_elements)
    by by_evaluation.
  assert (H4 : (Z.to_nat
                  (GetCount (Deleter_ctor 64 int_header_int_elements 24))
                < 6)%nat) by by_evaluation.
  repeat (split; [assumption|]).
  exact (teardown_inside_block 64 int_header_int_elements 24 4096 6
           H1 H2 H3 H4).
Defined.

Lemma range_for_agrees_with_subscript_witness :
  1 <= sizeof_iterated int_header_int_elements
  /\ 0 <= mCount {| mCount := 3 |}
  /\ (Z.to_nat (mCount {| mCount := 3 |}) <= 3)%nat
  /\ exists visited,
       range_for int_header_int_elements 3
         (begin int_header_int_elements
            {| get := Some 1000; get_deleter := {| mCount := 3 |} |})
         (end_ int_header_int_elements
            {| get := Some 1000; get_deleter := {| mCount := 3 |} |})
       = Some visited
       /\ Z.of_nat (length visited) = 3.
Proof.
  assert (H1 : 1 <= sizeof_iterated int_header_int_elements)
    by by_evaluation.
  assert (H2 : 0 <= mCount {| mCount := 3 |}) by by_evaluation.
  assert (H3 : (Z.to_nat (mCount {| mCount := 3 |}) <= 3)%nat)
    by by_evaluation.
  repeat (split; [assumption|]).
  destruct (range_for_agrees_with_subscript int_header_int_elements
              1000 {| mCount := 3 |} 3 H1 H2 H3)
    as [visited [Hrun [Hlen _]]].
  exists visited. split; assumption.
Defined.

Lemma subscript_inside_block_witness :
  0 <= sizeof_header int_header_int_elements <= 24
  /\ 24 < size_modulus 64
  /\ 1 <= sizeof_element int_header_int_elements
  /\ sizeof_iterated int_header_int_elements
     = sizeof_element int_header_int_elements
  /\ 0 <= 4 < Count (Ptr_ctor 64 int_header_int_elements (Some 4096) 24)
  /\ exists a b e,
       subscript int_header_int_elements
         (Ptr_ctor 64 int_header_int_elements (Some 4096) 24) 4 = Some a
       /\ begin int_header_int_elements
            (Ptr_ctor 64 int_header_int_elements (Some 4096) 24) = Some b
       /\ end_ int_header_int_elements
            (Ptr_ctor 64 int_header_int_elements (Some 4096) 24) = Some e
       /\ 4096 <= b <= a
       /\ a + 4 <= e
       /\ e <= 4096 + 24.
Proof.
  assert (H1 : 0 <= sizeof_header int_header_int_elements <= 24)
    by by_evaluation.
  assert (H2 : 24 < size_modulus 64) by by_evaluation.
  assert (H3 : 1 <= sizeof_element int_header_int_elements)
    by by_evaluation.
  assert (H5 : 0 <= 4
               < Count (Ptr_ctor 64 int_header_int_elements (Some 4096) 24))
    by by_evaluation.
  repeat (split; [first [assumption | reflexivity]|]).
  exact (subscript_inside_block 64 int_header_int_elements 24 4096 4
           H1 H2 H3 eq_refl H5).
Defined.

Lemma teardown_reverses_iteration_witness :
  offsetof_elements int_header_int_elements
  = header_bytes int_header_int_elements
  /\ sizeof_iterated int_header_int_elements
     = sizeof_element int_header_int_elements
  /\ 1 <= sizeof_element int_header_int_elements
  /\ 0 <= mCount {| mCount := 3 |}
  /\ (Z.to_nat (mCount {| mCount := 3 |}) < 4)%nat
  /\ exists visited,
       range_for int_header_int_elements 4
         (begin int_header_int_elements
            {| get := Some 1000; get_deleter := {| mCount := 3 |} |})
         (end_ int_header_int_elements
            {| get := Some 1000; get_deleter := {| mCount := 3 |} |})
       = Some visited
       /\ Deleter_call int_header_int_elements 4 {| mCount := 3 |}
            (Some 1000)
          = Some (map EvDestroyElement (rev visited)
                  ++ [EvDestroyHeader 1000; EvBaseDelete 1000]).
Proof.
  assert (H3 : 1 <= sizeof_element int_header_int_elements)
    by by_evaluation.
  assert (H4 : 0 <= mCount {| mCount := 3 |}) by by_evaluation.
  assert (H5 : (Z.to_nat (mCount {| mCount := 3 |}) < 4)%nat)
    by by_evaluation.
  repeat (split; [first [assumption | reflexivity]|]).
  exact (teardown_reverses_iteration int_header_int_elements
           1000 {| mCount := 3 |} 4 eq_refl eq_refl H3 H4 H5).
Defined.

Lemma static_assert_offset_accepts_intended_witness :
  offset_matches_header int_header_int_elements = true
  /\ 1 <= sizeof_header int_header_int_elements
  /\ static_assert_offset int_header_int_elements = true.
Proof.
  assert (H2 : 1 <= sizeof_header int_header_int_elements)
    by by_evaluation.
  split; [reflexivity|]. split; [exact H2|].
  exact (static_assert_offset_accepts_intended int_header_int_elements
           eq_refl H2).
Defined.

(** ** Teardown outside the contract of the deleter *)

Lemma descending_In i n : 0 <= i < Z.of_nat n -> In i (descending n).
Proof.
  intros Hi. unfold descending.
  apply in_map_iff. exists (Z.to_nat i). split; [lia|].
  apply -> in_rev. apply in_seq. lia.
Qed.

Section OutsideContract.

Variable w : positive.
Variable heap_new : Z -> option Z.
Variable T : TypeInfo.

(** X13. When the array of the overlay starts later than the size of a
    non-empty header, because of padding between them, a block made by
    [AllocateCount<T>(count)] for a count that exceeds the managed type
    is too short for its [Count]: the teardown destroys an element that
    ends past the end of the block. *)
Theorem teardown_past_block_with_padding count p fuel :
  is_empty_header T = false ->
  0 <= sizeof_header T < offsetof_elements T ->
  1 <= sizeof_element T ->
  1 <= count ->
  sizeof_managed T <= sizeof_header T + count * sizeof_element T
    < size_modulus w ->
  heap_new (sizeof_header T + count * sizeof_element T) = Some p ->
  (Z.to_nat count < fuel)%nat ->
  exists P log last,
    AllocateCount w heap_new T count CtorReturns []
    = (Returned P,
       [EvOperatorNew (sizeof_header T + count * sizeof_element T);
        EvConstruct p])
    /\ Count P = count
    /\ Ptr_destroy T fuel P = Some log
    /\ In (EvDestroyElement last) log
    /\ p + (sizeof_header T + count * sizeof_element T)
       < last + sizeof_element T.
Proof.
  intros Hne Hoff He Hc Hsize Hnew Hfuel.
  assert (Hb : header_bytes T = sizeof_header T)
    by (unfold header_bytes; now rewrite Hne).
  assert (Hmax : Z.max (sizeof_managed T)
                   (header_bytes T + count * sizeof_element T)
                 = sizeof_header T + count * sizeof_element T)
    by (rewrite Hb; lia).
  assert (HC : GetCount (Deleter_ctor w T
                 (sizeof_header T + count * sizeof_element T)) = count).
  { rewrite Deleter_ctor_exact by nia.
    replace (sizeof_header T + count * sizeof_element T - sizeof_header T)
      with (count * sizeof_element T) by ring.
    apply Z.div_mul. lia. }
  exists (Ptr_ctor w T (Some p)
            (sizeof_header T + count * sizeof_element T)).
  eexists.
  exists (p + offsetof_elements T + (count - 1) * sizeof_element T).
  split; [|split; [|split; [|split]]].
  - rewrite AllocateCount_bytes by (rewrite ?Hb; nia).
    rewrite (AllocateBytes_success w heap_new _ _ p)
      by (rewrite Hmax; exact Hnew).
    rewrite Hmax. reflexivity.
  - exact HC.
  - unfold Ptr_destroy, Ptr_ctor; cbn [get get_deleter].
    apply Deleter_call_log;
      change (mCount ?d) with (GetCount d); rewrite HC; lia.
  - apply in_or_app. left. unfold destroyed_from.
    apply in_map_iff. exists (count - 1). split; [reflexivity|].
    apply descending_In.
    change (mCount ?d) with (GetCount d). rewrite HC. lia.
  - lia.
Qed.

(** X14. A [Ptr] that adopts a block through the inherited constructor
    taking only the pointer carries the default deleter.  Its teardown
    does not stop at the block: it destroys
    [(2^w - sizeof(header_type)) / sizeof(element_type)] elements before
    the header and the base deleter. *)
Theorem adopted_pointer_teardown p fuel :
  1 <= sizeof_header T ->
  1 <= sizeof_element T ->
  sizeof_header T + sizeof_element T <= size_modulus w ->
  (Z.to_nat ((size_modulus w - sizeof_header T) / sizeof_element T)
   < fuel)%nat ->
  exists destroyed,
    Ptr_destroy T fuel (Ptr_adopt w T (Some p))
    = Some (destroyed ++ [EvDestroyHeader p; EvBaseDelete p])
    /\ Z.of_nat (length destroyed)
       = (size_modulus w - sizeof_header T) / sizeof_element T
    /\ 0 < Z.of_nat (length destroyed)
    /\ forallb is_element_destruction destroyed = true.
Proof.
  intros Hh He Hfit Hfuel.
  assert (Hc : mCount (Deleter_default w T)
               = (size_modulus w - sizeof_header T) / sizeof_element T).
  { unfold Deleter_default, Deleter_ctor; simpl.
    rewrite size_sub_wraps by lia. f_equal. lia. }
  assert (Hpos : 0 < (size_modulus w - sizeof_header T) / sizeof_element T)
    by (apply Z.div_str_pos; lia).
  eexists. split; [|split; [|split]].
  - unfold Ptr_destroy, Ptr_adopt; cbn [get get_deleter].
    apply Deleter_call_log; rewrite Hc; [lia | exact Hfuel].
  - rewrite destroyed_from_length, Hc. lia.
  - rewrite destroyed_from_length, Hc. lia.
  - unfold destroyed_from. apply forallb_forall.
    intros e H. apply in_map_iff in H as [i [<- _]]. reflexivity.
Qed.

End OutsideContract.

(** A one-byte header, elements of eight bytes at offset 8, and five
    elements requested: the block has 41 bytes and the last element
    ends at byte 48. *)
Lemma teardown_past_block_with_padding_witness :
  is_empty_header char_header_double_elements = false
  /\ 0 <= sizeof_header char_header_double_elements
       < offsetof_elements char_header_double_elements
  /\ 1 <= sizeof_element char_header_double_elements
  /\ 1 <= 5
  /\ sizeof_managed char_header_double_elements
     <= sizeof_header char_header_double_elements
        + 5 * sizeof_element char_header_double_elements
     < size_modulus 64
  /\ (fun _ : Z => Some 4096)
       (sizeof_header char_header_double_elements
        + 5 * sizeof_element char_header_double_elements) = Some 4096
  /\ (Z.to_nat 5 < 6)%nat
  /\ Deleter_instantiates char_header_double_elements = true
  /\ exists P log last,
       AllocateCount 64 (fun _ => Some 4096) char_header_double_elements 5
         CtorReturns []
       = (Returned P, [EvOperatorNew 41; EvConstruct 4096])
       /\ Count P = 5
       /\ Ptr_destroy char_header_double_elements 6 P = Some log
       /\ In (EvDestroyElement last) log
       /\ 4096 + 41 < last + 8.
Proof.
  assert (H2 : 0 <= sizeof_header char_header_double_elements
               < offsetof_elements char_header_double_elements)
    by by_evaluation.
  assert (H3 : 1 <= sizeof_element char_header_double_elements)
    by by_evaluation.
  assert (H4 : 1 <= 5) by by_evaluation.
  assert (H5 : sizeof_managed char_header_double_elements
               <= sizeof_header char_header_double_elements
                  + 5 * sizeof_element char_header_double_elements
               < size_modulus 64) by by_evaluation.
  assert (H7 : (Z.to_nat 5 < 6)%nat) by by_evaluation.
  repeat (split; [first [assumption | reflexivity]|]).
  exact (teardown_past_block_with_padding 64 (fun _ => Some 4096)
           char_header_double_elements 5 4096 6
           eq_refl H2 H3 H4 H5 eq_refl H7).
Defined.

(** With a [size_t] of eight bits, a four-byte header and elements of
    four bytes, the default deleter holds the count 63. *)
Lemma adopted_pointer_teardown_witness :
  1 <= sizeof_header int_header_int_elements
  /\ 1 <= sizeof_element int_header_int_elements
  /\ sizeof_header int_header_int_elements
     + sizeof_element int_header_int_elements <= size_modulus 8
  /\ (Z.to_nat ((size_modulus 8 - sizeof_header int_header_int_elements)
                / sizeof_element int_header_int_elements) < 64)%nat
  /\ exists destroyed,
       Ptr_destroy int_header_int_elements 64
         (Ptr_adopt 8 int_header_int_elements (Some 4096))
       = Some (destroyed ++ [EvDestroyHeader 4096; EvBaseDelete 4096])
       /\ Z.of_nat (length destroyed) = 63.
Proof.
  assert (H1 : 1 <= sizeof_header int_header_int_elements)
    by by_evaluation.
  assert (H2 : 1 <= sizeof_element int_header_int_elements)
    by by_evaluation.
  assert (H3 : sizeof_header int_header_int_elements
               + sizeof_element int_header_int_elements <= size_modulus 8)
    by by_evaluation.
  assert (H4 : (Z.to_nat
                  ((size_modulus 8 - sizeof_header int_header_int_elements)
                   / sizeof_element int_header_int_elements) < 64)%nat)
    by by_evaluation.
  repeat (split; [assumption|]).
  destruct (adopted_pointer_teardown 8 int_header_int_elements 4096 64
              H1 H2 H3 H4) as [destroyed [Hrun [Hlen _]]].
  exists destroyed. split; [exact Hrun|].
  rewrite Hlen. reflexivity.
Defined.

(** Three four-byte objects behind a four-byte header at address 1000:
    [begin] is 1004 and [end] is 1016, twelve bytes further. *)
Lemma begin_end_range_witness :
  begin int_header_int_elements
    {| get := Some 1000; get_deleter := {| mCount := 3 |} |}
  = Some 1004
  /\ end_ int_header_int_elements
       {| get := Some 1000; get_deleter := {| mCount := 3 |} |}
     = Some 1016
  /\ Count {| get := Some 1000; get_deleter := {| mCount := 3 |} |} = 3.
Proof.
  destruct (begin_end_range int_header_int_elements
              {| get := Some 1000; get_deleter := {| mCount := 3 |} |}
              1000 3 {| mCount := 3 |} None 0%nat)
    as [Hbegin [_ [_ [Hcount [_ [Hend _]]]]]].
  rewrite Hbegin, Hend, Hcount. repeat split.
Defined.
